(** * Gemini Image Enhancer: the encoder and the view-state controller

    A shallow embedding of [src/utils/imageUtils.ts] (the encoder
    [fileToBase64]) and of the [App] component (the controller: the six
    [useState] cells, [handleImageUpload], [handleEnhanceClick],
    [isButtonDisabled] and the three controls wired to them), followed by
    the properties the specification states about them.

    JavaScript strings are modelled as [string]; [null]/[undefined] as
    [None]; a promise by the way it is settled ([Settled]); the asynchronous
    handler by the continuation it is suspended in ([Task]). *)

From Stdlib Require Import String Ascii List Bool Arith Lia.
Import ListNotations.
Open Scope string_scope.

Set Implicit Arguments.

(** ** JavaScript values the program manipulates *)

Module Js.

(** [String.prototype.split] with a one-character separator: the string is
    cut at every occurrence of the separator, and the result always has at
    least one element. *)
Fixpoint split (sep : ascii) (s : string) : list string :=
  match s with
  | EmptyString => [EmptyString]
  | String c rest =>
      if Ascii.eqb c sep then EmptyString :: split sep rest
      else match split sep rest with
           | [] => [String c EmptyString]
           | piece :: pieces => String c piece :: pieces
           end
  end.

(** Truthiness of a value of type [string | undefined]: [undefined] and the
    empty string are falsy. *)
Definition truthy (v : option string) : bool :=
  match v with
  | None => false
  | Some EmptyString => false
  | Some (String _ _) => true
  end.

(** [String.prototype.startsWith]. *)
Definition startsWith (s pre : string) : bool := String.prefix pre s.

(** What a [catch] clause can receive.  [ErrorObject m] is a value for
    which [instanceof Error] holds, with its [message]; [EventObject] is the
    [ProgressEvent] a [FileReader] hands to [onerror]; [OtherValue] stands
    for any other thrown value.  For the last two [instanceof Error] is
    false. *)
Inductive Thrown : Type :=
| ErrorObject (message : string)
| EventObject (label : string)
| OtherValue (label : string).

(** How a promise of an [A] is settled. *)
Inductive Settled (A : Type) : Type :=
| Resolved (value : A)
| Rejected (reason : Thrown).

Arguments Resolved {A} value.
Arguments Rejected {A} reason.

End Js.

(** ** The [File] the file picker supplies

    Only the declared media type is read by the program; [name] tells files
    apart. *)
Record File : Type := mkFile { name : string; type : string }.

(** ** [src/utils/imageUtils.ts] *)

Module ImageUtils.
Import Js.

(** The value [fileToBase64] resolves with. *)
Record Encoded : Type := mkEncoded { base64 : string; mimeType : string }.

(** Outcome of [reader.readAsDataURL(file)]: [onload] fires with
    [reader.result], or [onerror] fires with an event. *)
Inductive ReadOutcome : Type :=
| Loaded (result : string)
| Failed (event : string).

Definition comma : ascii := ","%char.

Definition decodeError : Thrown :=
  ErrorObject "Failed to read base64 string from file.".

(** [fileToBase64], as a function of the file and of what the reader
    reports. *)
Definition fileToBase64 (file : File) (r : ReadOutcome) : Settled Encoded :=
  match r with
  | Loaded result =>
      let base64String := nth_error (split comma result) 1 in
      match base64String with
      | Some b =>
          if truthy base64String
          then Resolved {| base64 := b; mimeType := type file |}
          else Rejected decodeError
      | None => Rejected decodeError
      end
  | Failed event => Rejected (EventObject event)
  end.

(** *** Vocabulary for the statements about the data URI *)

(** The text that follows the first occurrence of [sep], if there is one. *)
Fixpoint afterFirst (sep : ascii) (s : string) : option string :=
  match s with
  | EmptyString => None
  | String c rest => if Ascii.eqb c sep then Some rest else afterFirst sep rest
  end.

(** The text that precedes the first occurrence of [sep] (all of [s] when
    there is none). *)
Fixpoint upTo (sep : ascii) (s : string) : string :=
  match s with
  | EmptyString => EmptyString
  | String c rest => if Ascii.eqb c sep then EmptyString else String c (upTo sep rest)
  end.

(** [sep] occurs in [s]. *)
Fixpoint occurs (sep : ascii) (s : string) : bool :=
  match s with
  | EmptyString => false
  | String c rest => Ascii.eqb c sep || occurs sep rest
  end.

(** The comma-separated field that follows the first comma: the payload the
    encoder extracts. *)
Definition payload (s : string) : option string :=
  option_map (upTo comma) (afterFirst comma s).

End ImageUtils.

(** ** The [App] component *)

Module App.
Import Js ImageUtils.

(** What [URL.createObjectURL] returns: an opaque reference into the
    browser's blob URL store. *)
Definition ObjectURL : Type := nat.

(** The six [useState] cells. *)
Record State : Type := mkState {
  originalFile : option File;
  originalImageUrl : option ObjectURL;
  editedImageUrl : option string;
  prompt : string;
  isLoading : bool;
  error : option string
}.

Definition setOriginalFile (v : option File) (s : State) : State :=
  mkState v (originalImageUrl s) (editedImageUrl s) (prompt s) (isLoading s) (error s).
Definition setOriginalImageUrl (v : option ObjectURL) (s : State) : State :=
  mkState (originalFile s) v (editedImageUrl s) (prompt s) (isLoading s) (error s).
Definition setEditedImageUrl (v : option string) (s : State) : State :=
  mkState (originalFile s) (originalImageUrl s) v (prompt s) (isLoading s) (error s).
Definition setPrompt (v : string) (s : State) : State :=
  mkState (originalFile s) (originalImageUrl s) (editedImageUrl s) v (isLoading s) (error s).
Definition setIsLoading (v : bool) (s : State) : State :=
  mkState (originalFile s) (originalImageUrl s) (editedImageUrl s) (prompt s) v (error s).
Definition setError (v : option string) (s : State) : State :=
  mkState (originalFile s) (originalImageUrl s) (editedImageUrl s) (prompt s) (isLoading s) v.

(** The browser's blob URL store: the object URLs created and not revoked,
    and the next reference to hand out. *)
Record UrlStore : Type := mkStore { live : list ObjectURL; fresh : ObjectURL }.

Definition createObjectURL (u : UrlStore) : ObjectURL * UrlStore :=
  (fresh u, {| live := fresh u :: live u; fresh := S (fresh u) |}).

(** Where a run of [handleEnhanceClick] is suspended: at
    [await fileToBase64(originalFile)], holding the [originalFile] and
    [prompt] its closure captured, or at [await editImageWithGemini(...)]. *)
Inductive Task : Type :=
| AwaitEncoder (file : File) (instruction : string)
| AwaitEditClient.

(** Calls made to the two collaborators, oldest first. *)
Inductive Call : Type :=
| Encode (file : File)
| Submit (content mediaType instruction : string).

(** The component together with its environment. *)
Record Config : Type := mkConfig {
  view : State;
  urls : UrlStore;
  pending : list Task;
  calls : list Call
}.

Definition withView (s : State) (c : Config) : Config :=
  mkConfig s (urls c) (pending c) (calls c).

Definition invalidFileMessage : string := "Please upload a valid image file.".
Definition missingInputMessage : string := "Please upload an image and enter a prompt.".
Definition noImageMessage : string :=
  "The API did not return an image. Please try a different prompt.".
Definition unknownErrorMessage : string := "An unknown error occurred.".
Definition failurePrefix : string := "Failed to enhance image. ".
Definition pngDataUriHeader : string := "data:image/png;base64,".

(** [handleImageUpload]; the argument is [event.target.files?.[0]]. *)
Definition handleImageUpload (file : option File) (c : Config) : Config :=
  match file with
  | Some f =>
      if negb (startsWith (type f) "image/")
      then withView (setError (Some invalidFileMessage) (view c)) c
      else
        let (url, store) := createObjectURL (urls c) in
        mkConfig
          (setError None
             (setEditedImageUrl None
                (setOriginalImageUrl (Some url)
                   (setOriginalFile (Some f) (view c)))))
          store (pending c) (calls c)
  | None => c
  end.

(** The [catch] and [finally] clauses of [handleEnhanceClick]. *)
Definition errorMessage (err : Thrown) : string :=
  match err with
  | ErrorObject message => message
  | EventObject _ | OtherValue _ => unknownErrorMessage
  end.

Definition catchFinally (err : Thrown) (s : State) : State :=
  setIsLoading false (setError (Some (failurePrefix ++ errorMessage err)) s).

(** [handleEnhanceClick] up to its first [await]. *)
Definition handleEnhanceClick (c : Config) : Config :=
  match originalFile (view c) with
  | Some f =>
      if truthy (Some (prompt (view c)))
      then
        mkConfig
          (setEditedImageUrl None (setError None (setIsLoading true (view c))))
          (urls c)
          (pending c ++ [AwaitEncoder f (prompt (view c))])
          (calls c ++ [Encode f])
      else withView (setError (Some missingInputMessage) (view c)) c
  | None => withView (setError (Some missingInputMessage) (view c)) c
  end.

Fixpoint replaceTask (i : nat) (t : Task) (l : list Task) : list Task :=
  match l, i with
  | [], _ => []
  | _ :: rest, O => t :: rest
  | x :: rest, S j => x :: replaceTask j t rest
  end.

Fixpoint removeTask (i : nat) (l : list Task) : list Task :=
  match l, i with
  | [], _ => []
  | _ :: rest, O => rest
  | x :: rest, S j => x :: removeTask j rest
  end.

(** [handleEnhanceClick] resumed when [fileToBase64] settles. *)
Definition resumeAfterEncoder
    (i : nat) (file : File) (instruction : string) (r : ReadOutcome)
    (c : Config) : Config :=
  match fileToBase64 file r with
  | Resolved e =>
      mkConfig (view c) (urls c)
        (replaceTask i AwaitEditClient (pending c))
        (calls c ++ [Submit (base64 e) (mimeType e) instruction])
  | Rejected err =>
      mkConfig (catchFinally err (view c)) (urls c)
        (removeTask i (pending c)) (calls c)
  end.

(** [handleEnhanceClick] resumed when [editImageWithGemini] settles. *)
Definition resumeAfterEditClient
    (i : nat) (o : Settled (option string)) (c : Config) : Config :=
  let done (s : State) := mkConfig s (urls c) (removeTask i (pending c)) (calls c) in
  match o with
  | Resolved editedBase64 =>
      match editedBase64 with
      | Some v =>
          if truthy editedBase64
          then done (setIsLoading false
                       (setEditedImageUrl (Some (pngDataUriHeader ++ v)) (view c)))
          else done (catchFinally (ErrorObject noImageMessage) (view c))
      | None => done (catchFinally (ErrorObject noImageMessage) (view c))
      end
  | Rejected err => done (catchFinally err (view c))
  end.

(** [isButtonDisabled]. *)
Definition isButtonDisabled (s : State) : bool :=
  match originalFile s with Some _ => false | None => true end
  || negb (truthy (Some (prompt s)))
  || isLoading s.

(** What can happen to the component: the three controls of the page, and
    the two promises an enhancement attempt waits for. *)
Inductive Event : Type :=
| SelectFile (file : option File)
| ChangePrompt (value : string)
| ClickEnhance
| EncoderSettled (i : nat) (r : ReadOutcome)
| EditClientSettled (i : nat) (o : Settled (option string)).

(** One event.  The button carries [onClick={handleEnhanceClick}] and
    [disabled={isButtonDisabled}]: a click on it reaches the handler only
    when it is enabled.  A settlement event resumes the task it names, and
    is ignored when that task is not waiting for it. *)
Definition step (c : Config) (e : Event) : Config :=
  match e with
  | SelectFile file => handleImageUpload file c
  | ChangePrompt value => withView (setPrompt value (view c)) c
  | ClickEnhance =>
      if isButtonDisabled (view c) then c else handleEnhanceClick c
  | EncoderSettled i r =>
      match nth_error (pending c) i with
      | Some (AwaitEncoder file instruction) =>
          resumeAfterEncoder i file instruction r c
      | _ => c
      end
  | EditClientSettled i o =>
      match nth_error (pending c) i with
      | Some AwaitEditClient => resumeAfterEditClient i o c
      | _ => c
      end
  end.

Definition run (es : list Event) (c : Config) : Config := fold_left step es c.

(** The component as first rendered, in a browser that holds no object URL. *)
Definition initial : Config :=
  mkConfig (mkState None None None "" false None) (mkStore [] 0) [] [].

Inductive reachable : Config -> Prop :=
| reachable_initial : reachable initial
| reachable_step c e : reachable c -> reachable (step c e).

(** The three user actions. *)
Definition userAction (e : Event) : bool :=
  match e with
  | SelectFile _ | ChangePrompt _ | ClickEnhance => true
  | EncoderSettled _ _ | EditClientSettled _ _ => false
  end.

(** A file is selected that passes, respectively fails, the type check of
    [handleImageUpload]. *)
Definition selectsImage (e : Event) : bool :=
  match e with
  | SelectFile (Some f) => startsWith (type f) "image/"
  | _ => false
  end.

Definition selectsNonImage (e : Event) : bool :=
  match e with
  | SelectFile (Some f) => negb (startsWith (type f) "image/")
  | _ => false
  end.

(** Number of object URLs created and not revoked. *)
Definition liveHandles (c : Config) : nat := length (live (urls c)).

(** *** Vocabulary for the statements about runs *)

(** Either no attempt is in flight and the loading flag is down, or exactly
    one is, the flag is up and no edited image is held. *)
Definition singleFlight (c : Config) : Prop :=
  (pending c = [] /\ isLoading (view c) = false) \/
  (exists t, pending c = [t] /\ isLoading (view c) = true /\
             editedImageUrl (view c) = None).

(** The original file and its object URL are set together. *)
Definition originalCoupled (c : Config) : Prop :=
  originalFile (view c) = None <-> originalImageUrl (view c) = None.

(** While the loading flag is up the only message that can be shown is the
    one [handleImageUpload] sets for a rejected file. *)
Definition loadingError (c : Config) : Prop :=
  isLoading (view c) = true ->
  error (view c) = None \/ error (view c) = Some invalidFileMessage.

Definition invariant (c : Config) : Prop :=
  singleFlight c /\ originalCoupled c /\ loadingError c.

(** An attempt in flight in [c] ends with the encoder or the edit client
    rejecting with [err]. *)
Inductive attemptFails (c : Config) (err : Thrown) : Config -> Prop :=
| encoder_fails i file instruction r :
    nth_error (pending c) i = Some (AwaitEncoder file instruction) ->
    fileToBase64 file r = Rejected err ->
    attemptFails c err (step c (EncoderSettled i r))
| editClient_fails i :
    nth_error (pending c) i = Some AwaitEditClient ->
    attemptFails c err (step c (EditClientSettled i (Rejected err))).

(** The events of one enhancement attempt started by a click: the user
    actions [before] the encoder settles, those [between] that and the edit
    client settling, and the two settlements. *)
Definition attempt (before between : list Event)
    (r : ReadOutcome) (o : Settled (option string)) : list Event :=
  ClickEnhance :: before ++ EncoderSettled 0 r :: between ++ [EditClientSettled 0 o].

(** Files and configurations used in the examples. *)
Definition catPng : File := mkFile "cat.png" "image/png".
Definition dogJpg : File := mkFile "dog.jpg" "image/jpeg".
Definition docPdf : File := mkFile "doc.pdf" "application/pdf".

Definition ready : Config :=
  run [SelectFile (Some catPng); ChangePrompt "add a hat"] initial.

Definition encoding : Config := step ready ClickEnhance.

Definition submitting : Config :=
  step encoding (EncoderSettled 0 (Loaded "data:image/png;base64,AAAA")).

(** *** What the component renders

    The part of the returned JSX that depends on the state: the button
    ([disabled], label), the text area ([value]), and the five conditional
    blocks of the display section.  An object URL is a non-empty string, so
    [originalImageUrl] is truthy exactly when it is not null. *)
Record Rendered : Type := mkRendered {
  buttonDisabled : bool;
  buttonLabel : string;
  promptValue : string;
  errorParagraph : option string;
  loader : bool;
  originalPanel : option ObjectURL;
  comparisonPanel : option (option ObjectURL * string);
  placeholder : bool
}.

Definition render (s : State) : Rendered :=
  {| buttonDisabled := isButtonDisabled s;
     buttonLabel := if isLoading s then "Enhancing..." else "Enhance Image";
     promptValue := prompt s;
     errorParagraph := if truthy (error s) then error s else None;
     loader := isLoading s;
     originalPanel :=
       if negb (isLoading s) && negb (truthy (editedImageUrl s))
       then originalImageUrl s else None;
     comparisonPanel :=
       if negb (isLoading s) && truthy (editedImageUrl s)
       then match editedImageUrl s with
            | Some edited => Some (originalImageUrl s, edited)
            | None => None
            end
       else None;
     placeholder :=
       negb (isLoading s)
       && match originalImageUrl s with Some _ => false | None => true end
       && negb (truthy (error s)) |}.

Definition shown (A : Type) (o : option A) : nat :=
  match o with Some _ => 1 | None => 0 end.

(** How many of the loader, the original panel, the comparison panel and the
    placeholder are rendered. *)
Definition panelsShown (r : Rendered) : nat :=
  (if loader r then 1 else 0) + shown (originalPanel r)
  + shown (comparisonPanel r) + (if placeholder r then 1 else 0).

(** *** Vocabulary for the statements about histories *)

(** The call log read backwards: a [Submit] must come right after an
    [Encode] of a file whose declared type is the media type submitted. *)
Fixpoint submitsFollowEncodes (newestFirst : list Call) : bool :=
  match newestFirst with
  | [] => true
  | Encode _ :: older => submitsFollowEncodes older
  | Submit _ mediaType _ :: older =>
      match older with
      | Encode f :: _ => String.eqb mediaType (type f) && submitsFollowEncodes older
      | _ => false
      end
  end.

Definition orderlyCalls (log : list Call) : bool := submitsFollowEncodes (rev log).

(** The image file most recently selected, and the text most recently typed,
    in a list of events applied after [file], respectively [text], was
    current. *)
Definition lastImage (file : option File) (es : list Event) : option File :=
  fold_left (fun acc e => if selectsImage e
                          then match e with SelectFile f => f | _ => acc end
                          else acc) es file.

Definition lastPrompt (text : string) (es : list Event) : string :=
  fold_left (fun acc e => match e with ChangePrompt v => v | _ => acc end) es text.

(** No attempt is in flight, the loading flag is down, and the button is
    enabled as soon as the prompt is not empty. *)
Definition idleAgain (c : Config) : Prop :=
  pending c = [] /\ isLoading (view c) = false /\
  (prompt (view c) <> "" -> isButtonDisabled (view c) = false).

(** One of the two promises of an attempt settles. *)
Definition settlement (e : Event) : bool := negb (userAction e).

End App.

(** ** Facts about [split] *)

Section SplitFacts.
Import Js ImageUtils.
Variable sep : ascii.

Lemma split_nonempty (s : string) : split sep s <> [].
Proof.
  destruct s as [|c rest]; simpl; [discriminate|].
  destruct (Ascii.eqb c sep); [discriminate|].
  destruct (split sep rest); discriminate.
Qed.

Lemma split_head (s : string) : nth_error (split sep s) 0 = Some (upTo sep s).
Proof.
  induction s as [|c rest IH]; simpl; [reflexivity|].
  destruct (Ascii.eqb c sep); [reflexivity|].
  destruct (split sep rest) as [|piece pieces]; simpl in *; congruence.
Qed.

Lemma split_second (s : string) :
  nth_error (split sep s) 1 = option_map (upTo sep) (afterFirst sep s).
Proof.
  induction s as [|c rest IH]; simpl; [reflexivity|].
  destruct (Ascii.eqb c sep).
  - simpl. apply split_head.
  - pose proof (split_nonempty rest) as Hne.
    destruct (split sep rest) as [|piece pieces]; [congruence|].
    simpl in *. exact IH.
Qed.

Lemma upTo_no_occurrence (s : string) : occurs sep s = false -> upTo sep s = s.
Proof.
  induction s as [|c rest IH]; simpl; [reflexivity|].
  destruct (Ascii.eqb c sep); simpl; [discriminate|].
  intros H. now rewrite IH.
Qed.

Lemma afterFirst_occurs (s : string) :
  afterFirst sep s = None <-> occurs sep s = false.
Proof.
  induction s as [|c rest IH]; simpl; [tauto|].
  destruct (Ascii.eqb c sep); simpl; [split; discriminate | exact IH].
Qed.

Lemma afterFirst_app (h b : string) :
  occurs sep h = false -> afterFirst sep (h ++ String sep b) = Some b.
Proof.
  induction h as [|c rest IH]; simpl.
  - now rewrite Ascii.eqb_refl.
  - destruct (Ascii.eqb c sep); simpl; [discriminate | exact IH].
Qed.

End SplitFacts.

(** ** The encoder *)

Section Encoder.
Import Js ImageUtils App.

Lemma fileToBase64_loaded (file : File) (S : string) :
  fileToBase64 file (Loaded S) =
  match payload S with
  | Some (String a b) => Resolved (mkEncoded (String a b) (type file))
  | _ => Rejected decodeError
  end.
Proof.
  unfold fileToBase64, payload. rewrite split_second.
  destruct (afterFirst comma S) as [rest|]; simpl; [|reflexivity].
  destruct (upTo comma rest); reflexivity.
Qed.

(** C3, as stated, fails: on a read result with two commas the encoder
    resolves with the text between them, not with everything after the
    first. *)
Lemma fileToBase64_two_commas :
  afterFirst comma "data:image/png;base64,AAAA,BBBB" = Some "AAAA,BBBB" /\
  fileToBase64 catPng (Loaded "data:image/png;base64,AAAA,BBBB")
    = Resolved (mkEncoded "AAAA" "image/png") /\
  fileToBase64 catPng (Loaded "data:image/png;base64,AAAA,BBBB")
    <> Resolved (mkEncoded "AAAA,BBBB" (type catPng)).
Proof. split; [reflexivity | split; [reflexivity | discriminate]]. Qed.

(** C3, amended: when the read result has a comma and the text between the
    first comma and the next one (or the end) is not empty, the encoder
    resolves with that text as content and with the file's declared type as
    media type; the content is everything after the first comma when no
    further comma follows. *)
Theorem fileToBase64_resolves_with_field (file : File) (S rest : string) :
  afterFirst comma S = Some rest ->
  upTo comma rest <> "" ->
  fileToBase64 file (Loaded S)
    = Resolved {| base64 := upTo comma rest; mimeType := type file |} /\
  (occurs comma rest = false ->
   fileToBase64 file (Loaded S)
     = Resolved {| base64 := rest; mimeType := type file |}).
Proof.
  intros Hafter Hfield.
  assert (Hres : fileToBase64 file (Loaded S)
                 = Resolved {| base64 := upTo comma rest; mimeType := type file |}).
  { rewrite fileToBase64_loaded. unfold payload. rewrite Hafter. simpl.
    destruct (upTo comma rest); [congruence | reflexivity]. }
  split; [exact Hres|].
  intros Hno. rewrite Hres. now rewrite (upTo_no_occurrence _ _ Hno).
Qed.

Lemma fileToBase64_resolves_with_field_witness :
  afterFirst comma "data:image/jpeg;base64,/9j/4AAQ" = Some "/9j/4AAQ" /\
  fileToBase64 dogJpg (Loaded "data:image/jpeg;base64,/9j/4AAQ")
    = Resolved {| base64 := "/9j/4AAQ"; mimeType := "image/jpeg" |}.
Proof.
  split; [reflexivity|].
  apply (fileToBase64_resolves_with_field dogJpg
           "data:image/jpeg;base64,/9j/4AAQ" (rest := "/9j/4AAQ"));
    [reflexivity | discriminate | reflexivity].
Defined.

(** C8, as stated, fails: text that is not empty follows the first comma,
    yet the encoder rejects with the decode error, because the field between
    the first comma and the second is empty. *)
Lemma fileToBase64_empty_second_field :
  afterFirst comma "data:image/png;base64,,AAAA" = Some ",AAAA" /\
  ",AAAA" <> "" /\
  fileToBase64 catPng (Loaded "data:image/png;base64,,AAAA") = Rejected decodeError.
Proof. split; [reflexivity | split; [discriminate | reflexivity]]. Qed.

(** C8, amended: the encoder rejects with the decode error exactly when the
    read result has no comma or the text between the first comma and the
    next one (or the end) is empty; when the read fails it rejects with the
    event the reader hands to [onerror]; in every other case it resolves,
    with that text as content, and never with an empty content. *)
Theorem fileToBase64_outcome (file : File) (r : ReadOutcome) :
  (fileToBase64 file r = Rejected decodeError <->
   exists S, r = Loaded S /\ (payload S = None \/ payload S = Some "")) /\
  (forall event, r = Failed event ->
     fileToBase64 file r = Rejected (EventObject event)) /\
  (forall S b, r = Loaded S -> payload S = Some b -> b <> "" ->
     fileToBase64 file r = Resolved {| base64 := b; mimeType := type file |}) /\
  (forall e, fileToBase64 file r = Resolved e -> base64 e <> "").
Proof.
  destruct r as [S|event].
  - rewrite fileToBase64_loaded.
    destruct (payload S) as [[|a b]|] eqn:Hp; repeat split.
    + intros _. exists S. split; [reflexivity|]. right. congruence.
    + discriminate.
    + intros S' b' HS Hb Hne. injection HS as <-. congruence.
    + discriminate.
    + discriminate.
    + intros [S' [HS [H|H]]]; injection HS as <-; congruence.
    + discriminate.
    + intros S' b' HS Hb _. injection HS as <-. congruence.
    + intros e He. injection He as <-. discriminate.
    + intros _. exists S. split; [reflexivity|]. left. congruence.
    + discriminate.
    + intros S' b' HS Hb. injection HS as <-. congruence.
    + discriminate.
  - repeat split.
    + discriminate.
    + intros [S [HS _]]. discriminate.
    + intros event' H. injection H as <-. reflexivity.
    + discriminate.
    + discriminate.
Qed.

Lemma fileToBase64_outcome_witness :
  payload "data:image/png;base64,iVBORw0KGgo=" = Some "iVBORw0KGgo=" /\
  fileToBase64 catPng (Loaded "data:image/png;base64,iVBORw0KGgo=")
    = Resolved {| base64 := "iVBORw0KGgo="; mimeType := "image/png" |}.
Proof.
  split; [reflexivity|].
  destruct (fileToBase64_outcome catPng (Loaded "data:image/png;base64,iVBORw0KGgo="))
    as (_ & _ & Hres & _).
  apply (Hres _ _ eq_refl eq_refl). discriminate.
Defined.

(** The two shapes of read result the decode error is raised for, and an
    empty file's data URI among them. *)
Example fileToBase64_rejects_examples :
  fileToBase64 catPng (Loaded "data:") = Rejected decodeError /\
  fileToBase64 catPng (Loaded "data:image/png;base64,") = Rejected decodeError /\
  fileToBase64 catPng (Loaded "a,,b") = Rejected decodeError /\
  fileToBase64 catPng (Failed "NotReadableError") = Rejected (EventObject "NotReadableError").
Proof. repeat split. Qed.

End Encoder.

(** ** The controller: single events *)

Section Controller.
Import Js ImageUtils App.

Lemma isButtonDisabled_false (s : State) :
  isButtonDisabled s = false ->
  (exists f, originalFile s = Some f) /\
  truthy (Some (prompt s)) = true /\ isLoading s = false.
Proof.
  unfold isButtonDisabled. intros H.
  apply orb_false_elim in H as [H Hload].
  apply orb_false_elim in H as [Hfile Hprompt].
  apply negb_false_iff in Hprompt.
  destruct (originalFile s) as [f|]; [|discriminate].
  repeat split; eauto.
Qed.

Lemma truthy_prompt (p : string) : truthy (Some p) = false <-> p = "".
Proof. destruct p; simpl; split; congruence. Qed.

Lemma isButtonDisabled_true (s : State) :
  originalFile s = None \/ prompt s = "" \/ isLoading s = true ->
  isButtonDisabled s = true.
Proof.
  unfold isButtonDisabled. intros [H | [H | H]]; rewrite H.
  - reflexivity.
  - simpl. now rewrite orb_true_r.
  - now rewrite orb_true_r.
Qed.

Lemma click_disabled (c : Config) :
  isButtonDisabled (view c) = true -> step c ClickEnhance = c.
Proof. intros H. simpl. now rewrite H. Qed.

(** C1: when the original image is unset, or the prompt is empty, or an
    attempt is in flight, a click on the enhance button changes nothing: the
    six state cells, the pending attempts, the calls made to the encoder and
    to the edit client and the object URLs are all as before. *)
Theorem click_while_disabled_is_noop (c : Config) :
  originalFile (view c) = None \/ prompt (view c) = "" \/
  isLoading (view c) = true ->
  step c ClickEnhance = c.
Proof.
  intros H. now apply click_disabled, isButtonDisabled_true.
Qed.

Lemma click_while_disabled_is_noop_witness :
  isLoading (view encoding) = true /\ step encoding ClickEnhance = encoding.
Proof.
  split; [reflexivity|].
  apply (click_while_disabled_is_noop encoding). right; right; reflexivity.
Defined.

(** The handler itself is guarded on the file and the prompt only, and its
    guard reports a message; the button keeps a click from reaching it in
    those states. *)
Lemma handleEnhanceClick_guard (c : Config) :
  originalFile (view c) = None \/ prompt (view c) = "" ->
  handleEnhanceClick c = withView (setError (Some missingInputMessage) (view c)) c.
Proof.
  unfold handleEnhanceClick.
  intros [H | H]; rewrite H; [reflexivity|].
  destruct (originalFile (view c)); reflexivity.
Qed.

(** C9: selecting a file whose declared type does not begin with "image/"
    sets the message "Please upload a valid image file." and leaves the
    original file and its object URL as they were (and every other cell, the
    pending attempts and the object URLs too). *)
Theorem select_non_image (c : Config) (f : File) :
  startsWith (type f) "image/" = false ->
  let c' := step c (SelectFile (Some f)) in
  error (view c') = Some "Please upload a valid image file." /\
  originalImageUrl (view c') = originalImageUrl (view c) /\
  originalFile (view c') = originalFile (view c) /\
  c' = withView (setError (Some invalidFileMessage) (view c)) c.
Proof.
  intros H. simpl. rewrite H. simpl. repeat split.
Qed.

Lemma select_non_image_witness :
  startsWith (type docPdf) "image/" = false /\
  error (view (step initial (SelectFile (Some docPdf))))
    = Some "Please upload a valid image file." /\
  originalImageUrl (view (step initial (SelectFile (Some docPdf)))) = None.
Proof.
  split; [reflexivity|].
  destruct (select_non_image initial docPdf eq_refl) as [He [Hu _]].
  split; [exact He | exact Hu].
Defined.

(** C10: a change event that carries no file leaves the whole configuration,
    and so every state cell, unchanged. *)
Theorem select_nothing (c : Config) : step c (SelectFile None) = c.
Proof. reflexivity. Qed.

(** Selecting an image file: a new object URL is created and stored, the
    edited image and the message are cleared, and the object URLs created
    earlier stay in the store. *)
Lemma select_image (c : Config) (f : File) :
  startsWith (type f) "image/" = true ->
  let c' := step c (SelectFile (Some f)) in
  view c' = mkState (Some f) (Some (fresh (urls c))) None
                    (prompt (view c)) (isLoading (view c)) None /\
  live (urls c') = fresh (urls c) :: live (urls c) /\
  pending c' = pending c /\ calls c' = calls c.
Proof.
  intros H. simpl. rewrite H. simpl. repeat split.
Qed.

Lemma liveHandles_step (c : Config) (e : Event) :
  liveHandles (step c e) = liveHandles c + (if selectsImage e then 1 else 0).
Proof.
  unfold liveHandles.
  destruct e as [[f|]|v| |i r|i o]; simpl; try lia.
  - destruct (startsWith (type f) "image/"); simpl; lia.
  - destruct (isButtonDisabled (view c)); [lia|].
    unfold handleEnhanceClick.
    destruct (originalFile (view c)); [|simpl; lia].
    destruct (truthy _); simpl; lia.
  - destruct (nth_error (pending c) i) as [[file instr|]|]; try lia.
    unfold resumeAfterEncoder. destruct (fileToBase64 file r); simpl; lia.
  - destruct (nth_error (pending c) i) as [[file instr|]|]; try lia.
    unfold resumeAfterEditClient.
    destruct o as [[v|]|err]; simpl; try lia.
    destruct v; simpl; lia.
Qed.

Lemma liveHandles_run (es : list Event) (c : Config) :
  liveHandles (run es c) = liveHandles c + length (filter selectsImage es).
Proof.
  revert c. induction es as [|e es IH]; intros c; simpl; [lia|].
  unfold run in IH. rewrite IH, liveHandles_step.
  destruct (selectsImage e); simpl; lia.
Qed.

Lemma reachable_run (es : list Event) (c : Config) :
  reachable c -> reachable (run es c).
Proof.
  revert c. induction es as [|e es IH]; intros c Hc; simpl; [exact Hc|].
  apply IH. now apply reachable_step.
Qed.

(** C4, as stated, fails: after two images have been selected two object
    URLs are live, the first of them no longer referenced by the state. *)
Lemma two_selections_two_live_handles :
  let c := run [SelectFile (Some catPng); SelectFile (Some dogJpg)] initial in
  reachable c /\ liveHandles c = 2 /\ live (urls c) = [1; 0] /\
  originalImageUrl (view c) = Some 1.
Proof.
  cbv zeta. split; [|repeat split].
  apply reachable_run, reachable_initial.
Qed.

End Controller.

(** ** The controller: reachable configurations *)

Section Runs.
Import Js ImageUtils App.

Lemma invariant_initial : invariant initial.
Proof.
  split; [left; split; reflexivity | split; [split; reflexivity | discriminate]].
Qed.

Lemma nth_error_single (A : Type) (x y : A) (i : nat) :
  nth_error [x] i = Some y -> i = 0 /\ y = x.
Proof.
  destruct i as [|[|i]]; simpl; intros H; [split; congruence | discriminate..].
Qed.

Lemma invariant_step (c : Config) (e : Event) :
  invariant c -> invariant (step c e).
Proof.
  intros (Hflight & Hcoupled & Herr).
  destruct c as [[file url edited p loading err] store tasks log].
  unfold invariant, singleFlight, originalCoupled, loadingError in *.
  simpl in *.
  destruct e as [[f|]|v| |i r|i o]; simpl; auto.
  - destruct (startsWith (type f) "image/"); simpl.
    + split; [|split; [split; discriminate | auto]].
      destruct Hflight as [[-> ->]|(t & -> & -> & _)];
        [left; auto | right; exists t; auto].
    + auto.
  - unfold isButtonDisabled; simpl.
    destruct file as [f|]; simpl; [|auto].
    destruct p as [|a p]; simpl; [auto|].
    destruct loading; simpl; [auto|].
    destruct Hflight as [[-> _]|(t & _ & Hl & _)]; [|discriminate].
    unfold handleEnhanceClick; simpl.
    split; [right; eexists; simpl; auto | auto].
  - destruct (nth_error tasks i) as [[file' instr|]|] eqn:Hi; auto.
    destruct Hflight as [[-> _]|(t & -> & -> & ->)];
      [destruct i; discriminate|].
    apply nth_error_single in Hi as [-> <-].
    unfold resumeAfterEncoder; simpl.
    destruct (fileToBase64 file' r); simpl.
    + split; [right; exists AwaitEditClient; auto | auto].
    + split; [left; auto | split; [auto | discriminate]].
  - destruct (nth_error tasks i) as [[file' instr|]|] eqn:Hi; auto.
    destruct Hflight as [[-> _]|(t & -> & -> & ->)];
      [destruct i; discriminate|].
    apply nth_error_single in Hi as [-> <-].
    unfold resumeAfterEditClient; simpl.
    destruct o as [[[|a v]|]|thrown]; simpl;
      (split; [left; auto | split; [auto | discriminate]]).
Qed.

Lemma reachable_invariant (c : Config) : reachable c -> invariant c.
Proof.
  induction 1 as [|c e _ IH]; [apply invariant_initial | now apply invariant_step].
Qed.

(** In a reachable configuration an enabled button means no attempt is in
    flight, and a pending attempt means the loading flag is up and no edited
    image is held. *)
Lemma reachable_pending (c : Config) (i : nat) (t : Task) :
  reachable c -> nth_error (pending c) i = Some t ->
  i = 0 /\ pending c = [t] /\ isLoading (view c) = true /\
  editedImageUrl (view c) = None.
Proof.
  intros Hc Hi. destruct (reachable_invariant Hc) as ([[Hp _]|(t' & Hp & Hl & He)] & _).
  - rewrite Hp in Hi. destruct i; discriminate.
  - rewrite Hp in Hi. apply nth_error_single in Hi as [-> ->]. auto.
Qed.

Lemma reachable_enabled (c : Config) :
  reachable c -> isButtonDisabled (view c) = false -> pending c = [].
Proof.
  intros Hc Hd. apply isButtonDisabled_false in Hd as (_ & _ & Hl).
  destruct (reachable_invariant Hc) as ([[Hp _]|(t' & _ & Hl' & _)] & _);
    [exact Hp | congruence].
Qed.

(** The original image and its object URL are unset together, so the button
    is also inert whenever the object URL is unset. *)
Lemma click_without_handle_is_noop (c : Config) :
  reachable c -> originalImageUrl (view c) = None -> step c ClickEnhance = c.
Proof.
  intros Hc Hu. apply click_disabled, isButtonDisabled_true. left.
  destruct (reachable_invariant Hc) as (_ & Hcoupled & _). now apply Hcoupled.
Qed.

(** C2, as stated, fails: a file that is not an image, selected while an
    attempt is in flight, sets the message while the loading flag is up. *)
Lemma loading_with_message_reachable :
  let c := step encoding (SelectFile (Some docPdf)) in
  reachable c /\ isLoading (view c) = true /\
  error (view c) = Some "Please upload a valid image file.".
Proof.
  cbv zeta. split; [|split; reflexivity].
  apply reachable_step, reachable_step.
  unfold ready. apply reachable_run, reachable_initial.
Qed.

(** C2, amended: in every reachable configuration, when the loading flag is
    up the message is null or is the one set for a rejected file; it is null
    right after the click that starts the attempt. *)
Theorem loading_message (c : Config) :
  reachable c ->
  (isLoading (view c) = true ->
   error (view c) = None \/
   error (view c) = Some "Please upload a valid image file.") /\
  (isButtonDisabled (view c) = false ->
   isLoading (view (step c ClickEnhance)) = true /\
   error (view (step c ClickEnhance)) = None).
Proof.
  intros Hc. split.
  - apply (reachable_invariant Hc).
  - intros Hd. simpl. rewrite Hd.
    apply isButtonDisabled_false in Hd as ((f & Hf) & Hp & _).
    unfold handleEnhanceClick. rewrite Hf, Hp. split; reflexivity.
Qed.

Lemma reachable_ready : reachable ready.
Proof. unfold ready. apply reachable_run, reachable_initial. Qed.

Lemma reachable_submitting : reachable submitting.
Proof. apply reachable_step, reachable_step, reachable_ready. Qed.

Lemma loading_message_witness :
  reachable ready /\
  isLoading (view (step ready ClickEnhance)) = true /\
  error (view (step ready ClickEnhance)) = None.
Proof.
  split; [exact reachable_ready|].
  exact (proj2 (loading_message reachable_ready) eq_refl).
Defined.

(** ** The controller: how an attempt ends *)

(** C5: when the edit client resolves with no image, the attempt ends with
    the message "Failed to enhance image. The API did not return an image.
    Please try a different prompt.", no edited image, and the loading flag
    down, whatever the user did while the attempt was in flight. *)
Theorem absent_result_reported (c : Config) (i : nat) :
  reachable c ->
  nth_error (pending c) i = Some AwaitEditClient ->
  let c' := step c (EditClientSettled i (Resolved None)) in
  error (view c') =
    Some "Failed to enhance image. The API did not return an image. Please try a different prompt." /\
  editedImageUrl (view c') = None /\
  isLoading (view c') = false.
Proof.
  intros Hc Hi. simpl. rewrite Hi.
  destruct (reachable_pending _ Hc Hi) as (_ & _ & _ & He).
  unfold resumeAfterEditClient. simpl. auto.
Qed.

Lemma absent_result_reported_witness :
  reachable submitting /\
  nth_error (pending submitting) 0 = Some AwaitEditClient /\
  error (view (step submitting (EditClientSettled 0 (Resolved None)))) =
    Some "Failed to enhance image. The API did not return an image. Please try a different prompt.".
Proof.
  split; [exact reachable_submitting|]. split; [reflexivity|].
  exact (proj1 (absent_result_reported 0 reachable_submitting eq_refl)).
Defined.

(** C6: when the encoder or the edit client rejects, the attempt ends with
    the message "Failed to enhance image. " followed by the message of the
    error thrown, or by "An unknown error occurred." when what was thrown is
    not an error object; no edited image is held and the loading flag is
    down. *)
Theorem failure_reported (c c' : Config) (err : Thrown) :
  reachable c ->
  attemptFails c err c' ->
  (forall M, err = ErrorObject M ->
     error (view c') = Some ("Failed to enhance image. " ++ M)) /\
  ((forall M, err <> ErrorObject M) ->
     error (view c') = Some "Failed to enhance image. An unknown error occurred.") /\
  editedImageUrl (view c') = None /\
  isLoading (view c') = false.
Proof.
  intros Hc Hfail.
  assert (H : view c' = catchFinally err (view c) /\ editedImageUrl (view c) = None).
  { destruct Hfail as [i file instr r Hi Hr | i Hi];
      destruct (reachable_pending _ Hc Hi) as (_ & _ & _ & He);
      simpl; rewrite Hi; split; try exact He.
    - unfold resumeAfterEncoder. now rewrite Hr.
    - reflexivity. }
  destruct H as [-> He]. simpl. repeat split; try exact He.
  - intros M ->. reflexivity.
  - intros Hno. destruct err as [M| |]; [now destruct (Hno M) | reflexivity..].
Qed.

Lemma failure_reported_witness :
  reachable submitting /\
  attemptFails submitting (ErrorObject "Quota exceeded.")
    (step submitting (EditClientSettled 0 (Rejected (ErrorObject "Quota exceeded.")))) /\
  error (view (step submitting
                 (EditClientSettled 0 (Rejected (ErrorObject "Quota exceeded.")))))
    = Some "Failed to enhance image. Quota exceeded.".
Proof.
  assert (Hf : attemptFails submitting (ErrorObject "Quota exceeded.")
                 (step submitting
                    (EditClientSettled 0 (Rejected (ErrorObject "Quota exceeded.")))))
    by (apply editClient_fails; reflexivity).
  split; [exact reachable_submitting|]. split; [exact Hf|].
  exact (proj1 (failure_reported reachable_submitting Hf) "Quota exceeded." eq_refl).
Defined.

(** The two rejections of the encoder, as the controller reports them. *)
Example encoder_failures_reported :
  error (view (step encoding (EncoderSettled 0 (Loaded "data:"))))
    = Some "Failed to enhance image. Failed to read base64 string from file." /\
  error (view (step encoding (EncoderSettled 0 (Failed "NotReadableError"))))
    = Some "Failed to enhance image. An unknown error occurred.".
Proof. split; reflexivity. Qed.

(** A user action while the loading flag is up leaves the attempt in flight
    alone; it can set the message only by selecting a file that is not an
    image. *)
Lemma user_action_in_flight (c : Config) (e : Event) :
  userAction e = true ->
  isLoading (view c) = true ->
  pending (step c e) = pending c /\
  calls (step c e) = calls c /\
  isLoading (view (step c e)) = true /\
  (editedImageUrl (view c) = None -> editedImageUrl (view (step c e)) = None) /\
  (error (view c) = None -> selectsNonImage e = false ->
   error (view (step c e)) = None).
Proof.
  intros He Hl.
  destruct e as [[f|]|v| |i r|i o]; try discriminate; simpl.
  - destruct (startsWith (type f) "image/"); simpl; repeat split; auto; discriminate.
  - repeat split; auto.
  - repeat split; auto.
  - unfold isButtonDisabled. rewrite Hl, orb_true_r. repeat split; auto.
Qed.

Lemma user_actions_in_flight (es : list Event) (c : Config) :
  forallb userAction es = true ->
  isLoading (view c) = true ->
  pending (run es c) = pending c /\
  calls (run es c) = calls c /\
  isLoading (view (run es c)) = true /\
  (editedImageUrl (view c) = None -> editedImageUrl (view (run es c)) = None) /\
  (error (view c) = None -> existsb selectsNonImage es = false ->
   error (view (run es c)) = None).
Proof.
  revert c. induction es as [|e es IH]; intros c Hes Hl; simpl in *.
  - repeat split; auto.
  - apply andb_true_iff in Hes as [He Hes].
    destruct (user_action_in_flight c e He Hl) as (Hp & Hc & Hl' & Hed & Herr).
    destruct (IH (step c e) Hes Hl') as (Hp2 & Hc2 & Hl2 & Hed2 & Herr2).
    unfold run in *. rewrite Hp2, Hc2, Hp, Hc. repeat split; auto.
    intros H0 Hex. apply orb_false_elim in Hex as [H1 H2]. auto.
Qed.

Lemma run_app (es es' : list Event) (c : Config) :
  run (es ++ es') c = run es' (run es c).
Proof. apply fold_left_app. Qed.

(** C7, as stated, fails: an empty value is handled as an absent one; and a
    file that is not an image, selected while the attempt is in flight,
    leaves its message next to the edited image. *)
Lemma edit_client_value_exceptions :
  (let c' := step submitting (EditClientSettled 0 (Resolved (Some ""))) in
   editedImageUrl (view c') = None /\
   error (view c') =
     Some "Failed to enhance image. The API did not return an image. Please try a different prompt.") /\
  (let c' := run (attempt [SelectFile (Some docPdf)] []
                    (Loaded "data:image/png;base64,AAAA") (Resolved (Some "BBBB")))
                 ready in
   editedImageUrl (view c') = Some "data:image/png;base64,BBBB" /\
   error (view c') = Some "Please upload a valid image file.").
Proof. split; split; reflexivity. Qed.

(** An attempt in which the edit client resolves with a value that is not
    empty. *)
Lemma edited_image_shown
    (c : Config) (f : File) (e : Encoded) (before between : list Event)
    (r : ReadOutcome) (V : string) :
  reachable c ->
  isButtonDisabled (view c) = false ->
  originalFile (view c) = Some f ->
  fileToBase64 f r = Resolved e ->
  forallb userAction before = true ->
  forallb userAction between = true ->
  V <> "" ->
  let c' := run (attempt before between r (Resolved (Some V))) c in
  editedImageUrl (view c') = Some ("data:image/png;base64," ++ V) /\
  isLoading (view c') = false /\
  (existsb selectsNonImage (before ++ between) = false ->
   error (view c') = None).
Proof.
  intros Hc Hd Hf Hr Hb1 Hb2 HV. cbv zeta.
  pose proof (reachable_enabled Hc Hd) as Hp.
  apply isButtonDisabled_false in Hd as Hd'. destruct Hd' as (_ & Hprompt & _).
  unfold attempt. change (run (ClickEnhance :: ?l) c) with (run l (step c ClickEnhance)).
  rewrite run_app.
  set (c1 := step c ClickEnhance).
  assert (H1 : pending c1 = [AwaitEncoder f (prompt (view c))] /\
               isLoading (view c1) = true /\
               editedImageUrl (view c1) = None /\ error (view c1) = None).
  { unfold c1. simpl. rewrite Hd. unfold handleEnhanceClick.
    rewrite Hf, Hprompt, Hp. repeat split. }
  destruct H1 as (Hp1 & Hl1 & He1 & Hm1).
  destruct (user_actions_in_flight before c1 Hb1 Hl1) as (Hp2 & _ & Hl2 & He2 & Hm2).
  set (c2 := run before c1) in *.
  change (run (EncoderSettled 0 r :: ?l) c2) with (run l (step c2 (EncoderSettled 0 r))).
  set (c3 := step c2 (EncoderSettled 0 r)).
  assert (H3 : pending c3 = [AwaitEditClient] /\ view c3 = view c2).
  { unfold c3. simpl. rewrite Hp2, Hp1. simpl.
    unfold resumeAfterEncoder. rewrite Hr. simpl. rewrite Hp2, Hp1. split; reflexivity. }
  destruct H3 as (Hp3 & Hv3).
  assert (Hl3 : isLoading (view c3) = true) by (now rewrite Hv3).
  destruct (user_actions_in_flight between c3 Hb2 Hl3) as (Hp4 & _ & Hl4 & He4 & Hm4).
  rewrite run_app. set (c4 := run between c3) in *.
  simpl. rewrite Hp4, Hp3. simpl.
  destruct V as [|a v]; [congruence|].
  repeat split.
  intros Hex. rewrite existsb_app in Hex. apply orb_false_elim in Hex as [Hx1 Hx2].
  simpl. apply Hm4; [|exact Hx2]. rewrite Hv3. now apply Hm2.
Qed.

(** C7, amended: when the edit client resolves with a non-empty value V, the
    attempt ends with the edited image "data:image/png;base64," followed by
    V, whatever the type of the original, and with the loading flag down;
    the message is null provided no file that is not an image was selected
    while the attempt was in flight.  An empty value is handled like an
    absent one: in every configuration the two settlements lead to the same
    configuration. *)
Theorem edit_client_value_shown :
  (forall (c : Config) (f : File) (e : Encoded) (before between : list Event)
          (r : ReadOutcome) (V : string),
     reachable c ->
     isButtonDisabled (view c) = false ->
     originalFile (view c) = Some f ->
     fileToBase64 f r = Resolved e ->
     forallb userAction before = true ->
     forallb userAction between = true ->
     V <> "" ->
     let c' := run (attempt before between r (Resolved (Some V))) c in
     editedImageUrl (view c') = Some ("data:image/png;base64," ++ V) /\
     isLoading (view c') = false /\
     (existsb selectsNonImage (before ++ between) = false ->
      error (view c') = None)) /\
  (forall (c : Config) (i : nat),
     step c (EditClientSettled i (Resolved (Some "")))
     = step c (EditClientSettled i (Resolved None))).
Proof.
  split.
  - intros c f e before between r V. apply edited_image_shown.
  - intros c i. simpl.
    destruct (nth_error (pending c) i) as [[file instr|]|]; reflexivity.
Qed.

Lemma edit_client_value_shown_witness :
  reachable ready /\
  isButtonDisabled (view ready) = false /\
  fileToBase64 catPng (Loaded "data:image/png;base64,AAAA")
    = Resolved (mkEncoded "AAAA" "image/png") /\
  let c' := run (attempt [] [] (Loaded "data:image/png;base64,AAAA")
                   (Resolved (Some "BBBB"))) ready in
  editedImageUrl (view c') = Some "data:image/png;base64,BBBB" /\
  isLoading (view c') = false /\
  error (view c') = None.
Proof.
  split; [exact reachable_ready|]. split; [reflexivity|]. split; [reflexivity|].
  destruct (proj1 edit_client_value_shown
              ready catPng (mkEncoded "AAAA" "image/png") [] []
              (Loaded "data:image/png;base64,AAAA") "BBBB"
              reachable_ready eq_refl eq_refl eq_refl eq_refl eq_refl
              ltac:(discriminate)) as (He & Hl & Hm).
  split; [exact He | split; [exact Hl | exact (Hm eq_refl)]].
Defined.

(** The calls of the scenario: the encoder on the selected file, then the
    edit client on what the encoder returned and on the prompt as it was at
    the click. *)
Example scenario_calls :
  calls (run (attempt [ChangePrompt "add a scarf"] []
                (Loaded "data:image/png;base64,AAAA") (Resolved (Some "BBBB")))
             ready)
  = [Encode catPng; Submit "AAAA" "image/png" "add a hat"].
Proof. reflexivity. Qed.

End Runs.

(** ** The encoder: what it returns *)

Section EncoderResult.
Import Js ImageUtils App.

Lemma upTo_has_no_separator (sep : ascii) (s : string) :
  occurs sep (upTo sep s) = false.
Proof.
  induction s as [|c rest IH]; simpl; [reflexivity|].
  destruct (Ascii.eqb c sep) eqn:Hc; simpl; [reflexivity|].
  now rewrite Hc, IH.
Qed.

Lemma occurs_app (sep : ascii) (s t : string) :
  occurs sep (s ++ t) = occurs sep s || occurs sep t.
Proof.
  induction s as [|c rest IH]; simpl; [reflexivity|].
  now rewrite IH, orb_assoc.
Qed.

Lemma string_app_assoc (s t u : string) : (s ++ t) ++ u = s ++ (t ++ u).
Proof. induction s as [|c rest IH]; simpl; [reflexivity | now rewrite IH]. Qed.

Lemma fileToBase64_resolved (file : File) (r : ReadOutcome) (e : Encoded) :
  fileToBase64 file r = Resolved e ->
  exists S rest, r = Loaded S /\ afterFirst comma S = Some rest /\
                 base64 e = upTo comma rest /\ mimeType e = type file.
Proof.
  destruct r as [S|event]; [|discriminate].
  rewrite fileToBase64_loaded. unfold payload.
  destruct (afterFirst comma S) as [rest|] eqn:Ha; simpl; [|discriminate].
  destruct (upTo comma rest) as [|a b] eqn:Hu; [discriminate|].
  intros H. injection H as <-. exists S, rest. simpl. auto.
Qed.

(** X1: whatever the reader reports, the content the encoder resolves with
    contains no comma, and the media type is the declared type of the file. *)
Theorem fileToBase64_content_has_no_comma
    (file : File) (r : ReadOutcome) (e : Encoded) :
  fileToBase64 file r = Resolved e ->
  occurs comma (base64 e) = false /\ mimeType e = type file.
Proof.
  intros H. apply fileToBase64_resolved in H as (S & rest & _ & _ & Hb & Hm).
  split; [|exact Hm]. rewrite Hb. apply upTo_has_no_separator.
Qed.

Lemma fileToBase64_content_has_no_comma_witness :
  fileToBase64 catPng (Loaded "x,AAAA,BBBB") = Resolved (mkEncoded "AAAA" "image/png") /\
  occurs comma "AAAA" = false.
Proof.
  split; [reflexivity|].
  exact (proj1 (@fileToBase64_content_has_no_comma catPng (Loaded "x,AAAA,BBBB")
                  (mkEncoded "AAAA" "image/png") eq_refl)).
Defined.

(** X2: on a data URL of the shape the reader produces,
    "data:<media type>;base64,<body>" with no comma in the media type nor in
    the body and a body that is not empty, the encoder resolves with exactly
    the body; the media type written in the URL plays no part, the file's
    declared type is returned. *)
Theorem fileToBase64_data_url (file : File) (mediaType body : string) :
  occurs comma mediaType = false ->
  occurs comma body = false ->
  body <> "" ->
  fileToBase64 file (Loaded ("data:" ++ mediaType ++ ";base64," ++ body))
  = Resolved {| base64 := body; mimeType := type file |}.
Proof.
  intros Hm Hb Hne.
  rewrite fileToBase64_loaded. unfold payload.
  replace ("data:" ++ mediaType ++ ";base64," ++ body)
    with (("data:" ++ mediaType ++ ";base64") ++ String comma body).
  - rewrite afterFirst_app.
    + simpl. rewrite (upTo_no_occurrence _ _ Hb).
      destruct body; [congruence | reflexivity].
    + change ("data:" ++ mediaType ++ ";base64")
        with ("data:" ++ (mediaType ++ ";base64")).
      rewrite !occurs_app, Hm. reflexivity.
  - rewrite !string_app_assoc. reflexivity.
Qed.

Lemma fileToBase64_data_url_witness :
  occurs comma "image/jpeg" = false /\ occurs comma "/9j/4AAQSkZJRg==" = false /\
  fileToBase64 catPng (Loaded "data:image/jpeg;base64,/9j/4AAQSkZJRg==")
  = Resolved {| base64 := "/9j/4AAQSkZJRg=="; mimeType := "image/png" |}.
Proof.
  split; [reflexivity|]. split; [reflexivity|].
  apply (@fileToBase64_data_url catPng "image/jpeg" "/9j/4AAQSkZJRg==");
    [reflexivity | reflexivity | discriminate].
Defined.

End EncoderResult.

(** ** The controller: what the cells can hold *)

Section Shape.
Import Js ImageUtils App.

(** The cells of a reachable configuration: an attempt in flight or an
    edited image presupposes an original file; the edited image is a PNG data
    URI with a body that is not empty; the message is one of those the
    upload handler and the [catch] clause write. *)
Lemma shape_step (c : Config) (e : Event) :
  invariant c ->
  ((pending c <> [] -> originalFile (view c) <> None) /\
   (editedImageUrl (view c) = None \/
    originalFile (view c) <> None /\
    exists a V, editedImageUrl (view c) = Some (pngDataUriHeader ++ String a V)) /\
   (error (view c) = None \/ error (view c) = Some invalidFileMessage \/
    exists M, error (view c) = Some (failurePrefix ++ M))) ->
  (pending (step c e) <> [] -> originalFile (view (step c e)) <> None) /\
  (editedImageUrl (view (step c e)) = None \/
   originalFile (view (step c e)) <> None /\
   exists a V, editedImageUrl (view (step c e)) = Some (pngDataUriHeader ++ String a V)) /\
  (error (view (step c e)) = None \/
   error (view (step c e)) = Some invalidFileMessage \/
   exists M, error (view (step c e)) = Some (failurePrefix ++ M)).
Proof.
  intros (Hflight & _ & _) (Hpend & Hedit & Herr).
  destruct c as [[file url edited p loading err] store tasks log].
  unfold singleFlight in Hflight. simpl in *.
  destruct e as [[f|]|v| |i r|i o]; simpl; auto.
  - destruct (startsWith (type f) "image/"); simpl.
    + split; [discriminate | auto].
    + auto.
  - unfold isButtonDisabled; simpl.
    destruct file as [f|]; simpl; [|auto].
    destruct p as [|a p]; simpl; [auto|].
    destruct loading; simpl; [auto|].
    unfold handleEnhanceClick; simpl.
    split; [discriminate | auto].
  - destruct (nth_error tasks i) as [[file' instr|]|] eqn:Hi; auto.
    destruct Hflight as [[-> _]|(t & -> & -> & ->)];
      [destruct i; discriminate|].
    apply nth_error_single in Hi as [-> <-].
    assert (Hfile : file <> None) by (apply Hpend; discriminate).
    unfold resumeAfterEncoder; simpl.
    destruct (fileToBase64 file' r); simpl.
    + auto.
    + split; [congruence | split; [auto | eauto]].
  - destruct (nth_error tasks i) as [[file' instr|]|] eqn:Hi; auto.
    destruct Hflight as [[-> _]|(t & -> & -> & ->)];
      [destruct i; discriminate|].
    apply nth_error_single in Hi as [-> <-].
    assert (Hfile : file <> None) by (apply Hpend; discriminate).
    unfold resumeAfterEditClient; simpl.
    destruct o as [[[|a v]|]|thrown]; simpl;
      (split; [congruence | split; [eauto 6 | eauto]]).
Qed.

Lemma reachable_shape (c : Config) :
  reachable c ->
  (pending c <> [] -> originalFile (view c) <> None) /\
  (editedImageUrl (view c) = None \/
   originalFile (view c) <> None /\
   exists a V, editedImageUrl (view c) = Some (pngDataUriHeader ++ String a V)) /\
  (error (view c) = None \/ error (view c) = Some invalidFileMessage \/
   exists M, error (view c) = Some (failurePrefix ++ M)).
Proof.
  induction 1 as [|c e Hc IH].
  - simpl. split; [congruence | auto].
  - apply shape_step; [now apply reachable_invariant | exact IH].
Qed.

Lemma reachable_store (c : Config) :
  reachable c ->
  live (urls c) = rev (seq 0 (fresh (urls c))) /\
  originalImageUrl (view c) = hd_error (live (urls c)).
Proof.
  induction 1 as [|c e Hc [IHl IHo]]; [split; reflexivity|].
  destruct c as [[file url edited p loading err] [lv fr] tasks log].
  simpl in *.
  destruct e as [[f|]|v| |i r|i o]; simpl; auto.
  - destruct (startsWith (type f) "image/"); simpl; [|auto].
    split; [|reflexivity].
    change (fr :: lv = rev (seq 0 (S fr))).
    rewrite seq_S, rev_app_distr. simpl. now rewrite IHl.
  - destruct (isButtonDisabled _); simpl; [auto|].
    unfold handleEnhanceClick; simpl.
    destruct file; [destruct p|]; simpl; auto.
  - destruct (nth_error tasks i) as [[file' instr|]|]; simpl; auto.
    unfold resumeAfterEncoder. destruct (fileToBase64 file' r); simpl; auto.
  - destruct (nth_error tasks i) as [[file' instr|]|]; simpl; auto.
    unfold resumeAfterEditClient.
    destruct o as [[[|a v]|]|thrown]; simpl; auto.
Qed.

Lemma live_step (c : Config) (e : Event) :
  live (urls (step c e)) = live (urls c) \/
  live (urls (step c e)) = fresh (urls c) :: live (urls c).
Proof.
  destruct e as [[f|]|v| |i r|i o]; simpl; auto.
  - destruct (startsWith (type f) "image/"); simpl; auto.
  - destruct (isButtonDisabled (view c)); auto.
    unfold handleEnhanceClick.
    destruct (originalFile (view c)); [destruct (truthy _)|]; simpl; auto.
  - destruct (nth_error (pending c) i) as [[file instr|]|]; auto.
    unfold resumeAfterEncoder. destruct (fileToBase64 file r); simpl; auto.
  - destruct (nth_error (pending c) i) as [[file instr|]|]; auto.
    unfold resumeAfterEditClient.
    destruct o as [[[|a v]|]|thrown]; simpl; auto.
Qed.

(** C4, amended: after any sequence of events the number of live object URLs
    is the number of image files selected so far; no event releases an
    object URL; and selecting an image file creates an object URL that was
    not in the store, stores it, with the file, as the original, and leaves
    every object URL created earlier live. *)
Theorem handles_created_never_released (es : list Event) :
  let c := run es initial in
  liveHandles c = length (filter selectsImage es) /\
  (forall e u, In u (live (urls c)) -> In u (live (urls (step c e)))) /\
  (forall f, startsWith (type f) "image/" = true ->
     let c' := step c (SelectFile (Some f)) in
     ~ In (fresh (urls c)) (live (urls c)) /\
     originalFile (view c') = Some f /\
     originalImageUrl (view c') = Some (fresh (urls c)) /\
     live (urls c') = fresh (urls c) :: live (urls c)).
Proof.
  cbv zeta. split; [now rewrite liveHandles_run | split].
  - intros e u Hu. destruct (live_step (run es initial) e) as [-> | ->];
      [exact Hu | now right].
  - intros f Hf.
    assert (Hr : reachable (run es initial)) by apply reachable_run, reachable_initial.
    destruct (reachable_store Hr) as [Hl _].
    split.
    + rewrite Hl, <- in_rev, in_seq. lia.
    + simpl. rewrite Hf. simpl. repeat split.
Qed.

Lemma handles_created_never_released_witness :
  startsWith (type dogJpg) "image/" = true /\
  originalImageUrl
    (view (step (run [SelectFile (Some catPng)] initial) (SelectFile (Some dogJpg))))
  = Some 1 /\
  live (urls (step (run [SelectFile (Some catPng)] initial) (SelectFile (Some dogJpg))))
  = [1; 0].
Proof.
  split; [reflexivity|].
  destruct (handles_created_never_released [SelectFile (Some catPng)])
    as (_ & _ & Hsel).
  destruct (Hsel dogJpg eq_refl) as (_ & _ & Hurl & Hlive).
  split; [exact Hurl | exact Hlive].
Defined.

(** X3: in every reachable configuration at most one attempt is in flight,
    and the loading flag is up exactly when one is. *)
Theorem single_attempt_in_flight (c : Config) :
  reachable c ->
  length (pending c) <= 1 /\
  (isLoading (view c) = true <-> pending c <> []).
Proof.
  intros Hc.
  destruct (reachable_invariant Hc) as ([[Hp Hl]|(t & Hp & Hl & _)] & _);
    rewrite Hp, Hl; simpl; split; try lia; split; congruence.
Qed.

Lemma single_attempt_in_flight_witness :
  reachable encoding /\ length (pending encoding) <= 1 /\
  (isLoading (view encoding) = true <-> pending encoding <> []).
Proof.
  assert (Hr : reachable encoding) by apply reachable_step, reachable_ready.
  split; [exact Hr | exact (single_attempt_in_flight Hr)].
Defined.

(** X4: once an original file is held, no event unsets it or its object
    URL: the component never goes back to holding no image. *)
Theorem original_never_unset (es : list Event) (c : Config) :
  originalFile (view c) <> None ->
  originalImageUrl (view c) <> None ->
  originalFile (view (run es c)) <> None /\
  originalImageUrl (view (run es c)) <> None.
Proof.
  revert c. induction es as [|e es IH]; intros c Hf Hu; [auto|].
  simpl. apply IH;
    destruct c as [[file url edited p loading err] store tasks log];
    simpl in *;
    (destruct e as [[f|]|v| |i r|i o]; simpl; auto;
     [ destruct (startsWith (type f) "image/"); simpl; [discriminate | auto]
     | destruct (isButtonDisabled _); simpl; auto;
       unfold handleEnhanceClick; simpl;
       destruct file; [destruct p|]; simpl; auto
     | destruct (nth_error tasks i) as [[file' instr|]|]; simpl; auto;
       unfold resumeAfterEncoder; destruct (fileToBase64 file' r); simpl; auto
     | destruct (nth_error tasks i) as [[file' instr|]|]; simpl; auto;
       unfold resumeAfterEditClient;
       destruct o as [[[|a v]|]|thrown]; simpl; auto ]).
Qed.

Lemma original_never_unset_witness :
  originalFile (view ready) <> None /\
  originalFile (view (run [SelectFile (Some docPdf); SelectFile None;
                           ClickEnhance; EncoderSettled 0 (Failed "abort")] ready))
    <> None.
Proof.
  split; [discriminate|].
  apply (@original_never_unset
           [SelectFile (Some docPdf); SelectFile None; ClickEnhance;
            EncoderSettled 0 (Failed "abort")] ready); discriminate.
Defined.

(** X5: in every reachable configuration the object URL held for the
    original image is the one created last, it is in the browser's store,
    and the store holds no URL twice. *)
Theorem original_url_is_newest (c : Config) :
  reachable c ->
  originalImageUrl (view c) = hd_error (live (urls c)) /\
  (forall u, originalImageUrl (view c) = Some u -> In u (live (urls c))) /\
  NoDup (live (urls c)).
Proof.
  intros Hc. destruct (reachable_store Hc) as [Hl Ho].
  split; [exact Ho|]. split.
  - intros u Hu. rewrite Ho in Hu.
    destruct (live (urls c)); [discriminate|]. injection Hu as ->. now left.
  - rewrite Hl. apply NoDup_rev, seq_NoDup.
Qed.

Lemma original_url_is_newest_witness :
  reachable (run [SelectFile (Some catPng); SelectFile (Some dogJpg)] initial) /\
  originalImageUrl
    (view (run [SelectFile (Some catPng); SelectFile (Some dogJpg)] initial))
  = hd_error
      (live (urls (run [SelectFile (Some catPng); SelectFile (Some dogJpg)] initial))).
Proof.
  assert (Hr : reachable
                 (run [SelectFile (Some catPng); SelectFile (Some dogJpg)] initial))
    by apply reachable_run, reachable_initial.
  split; [exact Hr | exact (proj1 (original_url_is_newest Hr))].
Defined.

(** X6: in every reachable configuration the message is null, or the one
    for a rejected file, or begins with "Failed to enhance image. "; the
    handler's own "Please upload an image and enter a prompt." is never
    held. *)
Theorem message_shape (c : Config) :
  reachable c ->
  (error (view c) = None \/
   error (view c) = Some "Please upload a valid image file." \/
   exists M, error (view c) = Some ("Failed to enhance image. " ++ M)) /\
  error (view c) <> Some "Please upload an image and enter a prompt.".
Proof.
  intros Hc. destruct (reachable_shape Hc) as (_ & _ & Herr).
  split; [exact Herr|].
  destruct Herr as [-> | [-> | [M ->]]]; discriminate.
Qed.

Lemma message_shape_witness :
  reachable submitting /\
  error (view submitting) <> Some "Please upload an image and enter a prompt.".
Proof.
  split; [exact reachable_submitting|].
  exact (proj2 (message_shape reachable_submitting)).
Defined.

End Shape.

(** ** The controller: what is rendered *)

Section Rendering.
Import Js ImageUtils App.

Lemma reachable_edited_has_original (c : Config) (e : string) :
  reachable c -> editedImageUrl (view c) = Some e ->
  truthy (Some e) = true /\
  exists u, originalImageUrl (view c) = Some u /\ In u (live (urls c)).
Proof.
  intros Hc He.
  destruct (reachable_shape Hc) as (_ & [Hn | (Hf & a & V & HV)] & _);
    [congruence|].
  destruct (reachable_invariant Hc) as (_ & Hcoupled & _).
  destruct (reachable_store Hc) as (_ & Hhd).
  split; [rewrite HV in He; injection He as <-; reflexivity|].
  destruct (originalImageUrl (view c)) as [u|] eqn:Hu;
    [|now destruct Hf; apply Hcoupled].
  exists u. split; [reflexivity|].
  destruct (live (urls c)); [discriminate|]. injection Hhd as ->. now left.
Qed.

(** X7: the display section is never blank: in every state the message, the
    loader, the original panel, the comparison panel or the placeholder is
    rendered. *)
Theorem display_never_blank (s : State) :
  1 <= panelsShown (render s) \/ errorParagraph (render s) <> None.
Proof.
  destruct s as [file url edited p loading err].
  unfold panelsShown, render; simpl.
  destruct loading; simpl; [left; lia|].
  destruct edited as [[|a e]|], url as [u|], err as [[|b m]|]; simpl;
    try (left; lia); right; discriminate.
Qed.

(** X8: in every reachable configuration at most one of the loader, the
    original panel, the comparison panel and the placeholder is rendered. *)
Theorem one_panel_at_most (c : Config) :
  reachable c -> panelsShown (render (view c)) <= 1.
Proof.
  intros Hc.
  pose proof (fun e => @reachable_edited_has_original c e Hc) as Hed.
  destruct (view c) as [file url edited p loading err].
  unfold panelsShown, render; simpl in *.
  destruct loading; simpl; [lia|].
  destruct edited as [[|a e]|]; simpl.
  - destruct url; simpl; [lia|].
    destruct (Hed _ eq_refl) as (_ & u & Hu & _). discriminate.
  - destruct (Hed _ eq_refl) as (_ & u & -> & _). simpl. lia.
  - destruct url; simpl; [lia|]. destruct (negb (truthy err)); lia.
Qed.

Lemma one_panel_at_most_witness :
  reachable submitting /\ panelsShown (render (view submitting)) <= 1.
Proof.
  split; [exact reachable_submitting | exact (one_panel_at_most reachable_submitting)].
Defined.

(** X9: in every reachable configuration what is held is rendered: the
    message paragraph shows the message held, and, when no attempt is in
    flight, an edited image held is shown in the comparison panel beside an
    original whose object URL is not null and is in the browser's store. *)
Theorem held_is_rendered (c : Config) :
  reachable c ->
  errorParagraph (render (view c)) = error (view c) /\
  (forall e, isLoading (view c) = false -> editedImageUrl (view c) = Some e ->
     exists u, comparisonPanel (render (view c)) = Some (Some u, e) /\
               In u (live (urls c))).
Proof.
  intros Hc. split.
  - destruct (reachable_shape Hc) as (_ & _ & Herr).
    unfold render; simpl.
    destruct Herr as [-> | [-> | [M ->]]]; reflexivity.
  - intros e Hl He.
    destruct (reachable_edited_has_original Hc He) as (Ht & u & Hu & Hin).
    exists u. split; [|exact Hin].
    unfold render; simpl. rewrite Hl, He, Hu. simpl in *. now rewrite Ht.
Qed.

Lemma held_is_rendered_witness :
  reachable (step submitting (EditClientSettled 0 (Resolved (Some "BBBB")))) /\
  exists u,
    comparisonPanel
      (render (view (step submitting (EditClientSettled 0 (Resolved (Some "BBBB"))))))
    = Some (Some u, "data:image/png;base64,BBBB") /\
    In u (live (urls (step submitting (EditClientSettled 0 (Resolved (Some "BBBB")))))).
Proof.
  assert (Hr : reachable (step submitting (EditClientSettled 0 (Resolved (Some "BBBB")))))
    by apply reachable_step, reachable_submitting.
  split; [exact Hr|].
  exact (proj2 (held_is_rendered Hr) "data:image/png;base64,BBBB" eq_refl eq_refl).
Defined.

(** X10: in every reachable configuration, while an attempt is in flight the
    loader is rendered alone, the button is disabled and reads
    "Enhancing..."; when none is in flight the loader is not rendered and
    the button reads "Enhance Image". *)
Theorem rendering_follows_flight (c : Config) :
  reachable c ->
  (pending c <> [] ->
   loader (render (view c)) = true /\
   buttonDisabled (render (view c)) = true /\
   buttonLabel (render (view c)) = "Enhancing..." /\
   originalPanel (render (view c)) = None /\
   comparisonPanel (render (view c)) = None /\
   placeholder (render (view c)) = false) /\
  (pending c = [] ->
   loader (render (view c)) = false /\
   buttonLabel (render (view c)) = "Enhance Image").
Proof.
  intros Hc.
  destruct (reachable_invariant Hc) as ([[Hp Hl]|(t & Hp & Hl & _)] & _);
    rewrite Hp; (split; [intros Hne | intros He]); try congruence.
  - unfold render; simpl. rewrite Hl. split; reflexivity.
  - unfold render, isButtonDisabled; simpl. rewrite Hl. simpl.
    rewrite ?orb_true_r. repeat split.
Qed.

Lemma rendering_follows_flight_witness :
  reachable encoding /\ pending encoding <> [] /\
  buttonLabel (render (view encoding)) = "Enhancing...".
Proof.
  assert (Hr : reachable encoding) by apply reachable_step, reachable_ready.
  assert (Hne : pending encoding <> []) by discriminate.
  split; [exact Hr|]. split; [exact Hne|].
  exact (proj1 (proj2 (proj2 (proj1 (rendering_follows_flight Hr) Hne)))).
Defined.

End Rendering.

(** ** The controller: histories *)

Section Histories.
Import Js ImageUtils App.

Lemma reachable_calls (c : Config) :
  reachable c ->
  orderlyCalls (calls c) = true /\
  (forall f p, pending c = [AwaitEncoder f p] ->
     exists older, calls c = (older ++ [Encode f])%list).
Proof.
  induction 1 as [|c e Hc [IHo IHp]]; [split; [reflexivity | discriminate]|].
  destruct (reachable_invariant Hc) as (Hflight & _).
  destruct c as [[file url edited p loading err] store tasks log].
  unfold singleFlight, orderlyCalls in *. simpl in *.
  destruct e as [[f|]|v| |i r|i o]; simpl; auto.
  - destruct (startsWith (type f) "image/"); simpl; auto.
  - unfold isButtonDisabled; simpl.
    destruct file as [f|]; simpl; [|auto].
    destruct p as [|a p]; simpl; [auto|].
    destruct loading; simpl; [auto|].
    destruct Hflight as [[-> _]|(t & _ & Hl & _)]; [|discriminate].
    unfold handleEnhanceClick; simpl. rewrite rev_unit. simpl.
    split; [exact IHo|].
    intros f' p' H'. injection H' as <- _. now exists log.
  - destruct (nth_error tasks i) as [[file' instr|]|] eqn:Hi; auto.
    destruct Hflight as [[-> _]|(t & -> & -> & ->)];
      [destruct i; discriminate|].
    apply nth_error_single in Hi as [-> <-].
    destruct (IHp _ _ eq_refl) as [older ->].
    unfold resumeAfterEncoder; simpl.
    destruct (fileToBase64 file' r) as [enc|thrown] eqn:Hr; simpl.
    + split; [|discriminate].
      apply fileToBase64_resolved in Hr as (_ & _ & _ & _ & _ & Hm).
      rewrite rev_unit. rewrite rev_unit in *. simpl.
      rewrite Hm, String.eqb_refl. exact IHo.
    + split; [exact IHo | discriminate].
  - destruct (nth_error tasks i) as [[file' instr|]|] eqn:Hi; auto.
    destruct Hflight as [[-> _]|(t & -> & -> & ->)];
      [destruct i; discriminate|].
    apply nth_error_single in Hi as [-> <-].
    unfold resumeAfterEditClient; simpl.
    destruct o as [[[|a v]|]|thrown]; simpl; (split; [exact IHo | discriminate]).
Qed.

(** X11: an attempt started by a click calls the encoder once, on the file
    held at the click, and then, if the encoder resolves, the edit client
    once, with the content the encoder returned, the declared type of that
    file and the prompt as it was at the click, whatever the user selects or
    types while the attempt is in flight; if the encoder rejects, the edit
    client is not called. *)
Theorem attempt_calls
    (c : Config) (f : File) (before between : list Event)
    (r : ReadOutcome) (o : Settled (option string)) :
  reachable c ->
  isButtonDisabled (view c) = false ->
  originalFile (view c) = Some f ->
  forallb userAction before = true ->
  forallb userAction between = true ->
  (forall e, fileToBase64 f r = Resolved e ->
     calls (run (attempt before between r o) c)
     = (calls c ++ [Encode f; Submit (base64 e) (type f) (prompt (view c))])%list) /\
  (forall err, fileToBase64 f r = Rejected err ->
     calls (run (ClickEnhance :: before ++ [EncoderSettled 0 r]) c)
     = (calls c ++ [Encode f])%list).
Proof.
  intros Hc Hd Hf Hb1 Hb2.
  pose proof (reachable_enabled Hc Hd) as Hp.
  apply isButtonDisabled_false in Hd as Hd'. destruct Hd' as (_ & Hprompt & _).
  set (c1 := step c ClickEnhance).
  assert (H1 : pending c1 = [AwaitEncoder f (prompt (view c))] /\
               isLoading (view c1) = true /\ calls c1 = (calls c ++ [Encode f])%list).
  { unfold c1. simpl. rewrite Hd. unfold handleEnhanceClick.
    rewrite Hf, Hprompt, Hp. repeat split. }
  destruct H1 as (Hp1 & Hl1 & Hc1).
  destruct (user_actions_in_flight before c1 Hb1 Hl1) as (Hp2 & Hc2 & Hl2 & _).
  split.
  - intros e Hr. unfold attempt.
    change (run (ClickEnhance :: ?l) c) with (run l c1).
    rewrite run_app. set (c2 := run before c1) in *.
    change (run (EncoderSettled 0 r :: ?l) c2)
      with (run l (step c2 (EncoderSettled 0 r))).
    set (c3 := step c2 (EncoderSettled 0 r)).
    assert (H3 : pending c3 = [AwaitEditClient] /\ view c3 = view c2 /\
                 calls c3 = (calls c2 ++ [Submit (base64 e) (mimeType e) (prompt (view c))])%list).
    { unfold c3. simpl. rewrite Hp2, Hp1. simpl.
      unfold resumeAfterEncoder. rewrite Hr. simpl. rewrite Hp2, Hp1.
      repeat split. }
    destruct H3 as (Hp3 & Hv3 & Hc3).
    assert (Hl3 : isLoading (view c3) = true) by (now rewrite Hv3).
    destruct (user_actions_in_flight between c3 Hb2 Hl3) as (Hp4 & Hc4 & _).
    rewrite run_app. set (c4 := run between c3) in *.
    simpl. rewrite Hp4, Hp3. simpl.
    assert (Hcalls : calls (resumeAfterEditClient 0 o c4) = calls c4)
      by (unfold resumeAfterEditClient; destruct o as [[[|a v]|]|thrown]; reflexivity).
    rewrite Hcalls, Hc4, Hc3, Hc2, Hc1, <- app_assoc.
    apply fileToBase64_resolved in Hr as (_ & _ & _ & _ & _ & ->). reflexivity.
  - intros err Hr.
    change (run (ClickEnhance :: ?l) c) with (run l c1).
    rewrite run_app. set (c2 := run before c1) in *.
    simpl. rewrite Hp2, Hp1. simpl.
    unfold resumeAfterEncoder. rewrite Hr. simpl. now rewrite Hc2, Hc1.
Qed.

Lemma attempt_calls_witness :
  reachable ready /\ isButtonDisabled (view ready) = false /\
  calls (run (attempt [SelectFile (Some dogJpg); ChangePrompt "add a scarf"] []
                (Loaded "data:image/png;base64,AAAA") (Resolved (Some "BBBB")))
             ready)
  = (calls ready ++ [Encode catPng; Submit "AAAA" "image/png" "add a hat"])%list.
Proof.
  split; [exact reachable_ready|]. split; [reflexivity|].
  exact (proj1 (@attempt_calls ready catPng
                  [SelectFile (Some dogJpg); ChangePrompt "add a scarf"] []
                  (Loaded "data:image/png;base64,AAAA") (Resolved (Some "BBBB"))
                  reachable_ready eq_refl eq_refl eq_refl eq_refl)
               (mkEncoded "AAAA" "image/png") eq_refl).
Defined.

(** X12: in every reachable configuration the edit client has only been
    called right after a call of the encoder, with the declared type of the
    file that was encoded as media type. *)
Theorem calls_are_orderly (c : Config) :
  reachable c -> orderlyCalls (calls c) = true.
Proof. intros Hc. apply (reachable_calls Hc). Qed.

Lemma calls_are_orderly_witness :
  reachable submitting /\ orderlyCalls (calls submitting) = true.
Proof.
  split; [exact reachable_submitting | exact (calls_are_orderly reachable_submitting)].
Defined.

(** X13: after any events the prompt is the text typed last (the text held
    before when none was typed): nothing but the text area writes it, and no
    outcome of an attempt clears it. *)
Theorem prompt_is_last_typed (es : list Event) (c : Config) :
  prompt (view (run es c)) = lastPrompt (prompt (view c)) es.
Proof.
  revert c. induction es as [|e es IH]; intros c; [reflexivity|].
  simpl. unfold run, lastPrompt in *. simpl. rewrite IH. f_equal.
  destruct c as [[file url edited p loading err] store tasks log]. simpl.
  destruct e as [[f|]|v| |i r|i o]; simpl; auto.
  - destruct (startsWith (type f) "image/"); reflexivity.
  - destruct (isButtonDisabled _); simpl; auto.
    unfold handleEnhanceClick; simpl.
    destruct file; [destruct p|]; reflexivity.
  - destruct (nth_error tasks i) as [[file' instr|]|]; simpl; auto.
    unfold resumeAfterEncoder. destruct (fileToBase64 file' r); reflexivity.
  - destruct (nth_error tasks i) as [[file' instr|]|]; simpl; auto.
    unfold resumeAfterEditClient.
    destruct o as [[[|a v]|]|thrown]; reflexivity.
Qed.

(** X14: after any events the original file is the image file selected last
    (the one held before when none was selected): a rejected file, an empty
    selection and the outcome of an attempt leave it as it is. *)
Theorem original_is_last_image (es : list Event) (c : Config) :
  originalFile (view (run es c)) = lastImage (originalFile (view c)) es.
Proof.
  revert c. induction es as [|e es IH]; intros c; [reflexivity|].
  simpl. unfold run, lastImage in *. simpl. rewrite IH. f_equal.
  destruct c as [[file url edited p loading err] store tasks log]. simpl.
  destruct e as [[f|]|v| |i r|i o]; simpl; auto.
  - destruct (startsWith (type f) "image/"); reflexivity.
  - destruct (isButtonDisabled _); simpl; auto.
    unfold handleEnhanceClick; simpl.
    destruct file; [destruct p|]; reflexivity.
  - destruct (nth_error tasks i) as [[file' instr|]|]; simpl; auto.
    unfold resumeAfterEncoder. destruct (fileToBase64 file' r); reflexivity.
  - destruct (nth_error tasks i) as [[file' instr|]|]; simpl; auto.
    unfold resumeAfterEditClient.
    destruct o as [[[|a v]|]|thrown]; reflexivity.
Qed.

(** X15: every attempt ends in a state from which the user can try again:
    when the edit client settles, however it does, or when the encoder
    rejects, no attempt is left in flight, the loading flag is down, and the
    button is enabled again as soon as the prompt is not empty. *)
Theorem attempt_end_allows_retry (c : Config) (i : nat) :
  reachable c ->
  (forall o, nth_error (pending c) i = Some AwaitEditClient ->
     idleAgain (step c (EditClientSettled i o))) /\
  (forall f p r err,
     nth_error (pending c) i = Some (AwaitEncoder f p) ->
     fileToBase64 f r = Rejected err ->
     idleAgain (step c (EncoderSettled i r))).
Proof.
  intros Hc.
  assert (Hidle : forall t s, nth_error (pending c) i = Some t ->
            originalFile s = originalFile (view c) -> isLoading s = false ->
            idleAgain (mkConfig s (urls c) (removeTask i (pending c)) (calls c))).
  { intros t s Hi Hf Hl.
    destruct (reachable_pending _ Hc Hi) as (-> & Hp & _).
    destruct (reachable_shape Hc) as (Hfile & _).
    assert (Hsome : originalFile (view c) <> None)
      by (apply Hfile; rewrite Hp; discriminate).
    unfold idleAgain, isButtonDisabled. simpl. rewrite Hp, Hf, Hl. simpl.
    repeat split.
    intros Hne. destruct (originalFile (view c)); [|congruence].
    destruct (prompt s); [congruence | reflexivity]. }
  split.
  - intros o Hi. simpl. rewrite Hi. unfold resumeAfterEditClient.
    destruct o as [[[|a v]|]|thrown]; apply (Hidle _ _ Hi); reflexivity.
  - intros f p r err Hi Hr. simpl. rewrite Hi. unfold resumeAfterEncoder.
    rewrite Hr. apply (Hidle _ _ Hi); reflexivity.
Qed.

Lemma attempt_end_allows_retry_witness :
  reachable submitting /\
  nth_error (pending submitting) 0 = Some AwaitEditClient /\
  idleAgain (step submitting (EditClientSettled 0 (Rejected (OtherValue "timeout")))).
Proof.
  split; [exact reachable_submitting|]. split; [reflexivity|].
  exact (proj1 (attempt_end_allows_retry 0 reachable_submitting)
               (Rejected (OtherValue "timeout")) eq_refl).
Defined.

(** X16: selecting another image while an attempt is in flight does not
    cancel the attempt: when the edit client then resolves with a value, the
    result obtained for the earlier image is rendered in the comparison
    panel beside the newly selected original. *)
Theorem result_outlives_new_selection
    (c : Config) (i : nat) (f : File) (V : string) :
  reachable c ->
  nth_error (pending c) i = Some AwaitEditClient ->
  startsWith (type f) "image/" = true ->
  V <> "" ->
  let c' := run [SelectFile (Some f); EditClientSettled i (Resolved (Some V))] c in
  originalFile (view c') = Some f /\
  comparisonPanel (render (view c'))
  = Some (Some (fresh (urls c)), "data:image/png;base64," ++ V) /\
  pending c' = [].
Proof.
  intros Hc Hi Hf HV.
  destruct (reachable_pending _ Hc Hi) as (-> & Hp & _).
  cbv zeta. simpl. rewrite Hf. simpl. rewrite Hp. simpl.
  destruct V as [|a v]; [congruence|]. repeat split.
Qed.

Lemma result_outlives_new_selection_witness :
  reachable submitting /\
  nth_error (pending submitting) 0 = Some AwaitEditClient /\
  originalFile
    (view (run [SelectFile (Some dogJpg); EditClientSettled 0 (Resolved (Some "BBBB"))]
               submitting))
  = Some dogJpg.
Proof.
  split; [exact reachable_submitting|]. split; [reflexivity|].
  exact (proj1 (@result_outlives_new_selection submitting 0 dogJpg "BBBB"
                  reachable_submitting eq_refl eq_refl ltac:(discriminate))).
Defined.

End Histories.
